(** * SMEFiT Bayesian reweighting / unweighting (BayesianRW/SMEFiT_rw_unw.py)

    A shallow embedding of the numerical core of the script: the weights
    of the replicas, the Shannon effective number of replicas, the
    inverse-CDF unweighting into integer multiplicities, the moments of the
    unweighted set, the reduction of the standard deviations and the
    selection of the constrained operators.

    Numbers.  The script computes on IEEE binary64 arrays.  Finite binary64
    values are rationals and their comparisons are exact, so the stages
    that only add, divide and compare (the unweighting loops) are modelled
    on [Q], where they run.  The stages that call [np.exp], [np.log],
    [np.sqrt] or [**], and the stages that consume their results (the
    moments, the reductions, the selection), are modelled on [R],
    extended with the three exceptional values numpy yields instead of
    raising ([inf], [-inf], [nan]).  Rounding of the arithmetic is not
    modelled in either part. *)

From Stdlib Require Import String.
From Stdlib Require Import List ZArith QArith Qround Lia Bool.
From Stdlib Require Import Reals Psatz Sorted.
Import ListNotations.

(** ** Python exceptions the script can end with *)

Inductive exn : Type :=
| AssertionError (msg : string)
| ValueError (msg : string)
| ZeroDivisionError.

Definition result (A : Type) : Type := (exn + A)%type.

(** ** numpy array helpers that do not depend on the element type *)

Module Numpy.
Section Generic.
Context {A : Type}.

(** [np.where(cond)[0]] on a one dimensional array: the positions at
    which the condition holds, in increasing order. *)
Fixpoint where_from (i : nat) (p : A -> bool) (xs : list A) : list nat :=
  match xs with
  | [] => []
  | x :: r => if p x then i :: where_from (S i) p r
              else where_from (S i) p r
  end.

Definition np_where (p : A -> bool) (xs : list A) : list nat :=
  where_from 0 p xs.

(** One assignment [a[i] = v].  [np.put] raises on a position outside
    the array; every call of the script passes positions returned by
    [np.where] on the same array, and outside the array this model
    leaves the array as it is. *)
Fixpoint set_item (xs : list A) (i : nat) (v : A) : list A :=
  match xs, i with
  | [], _ => []
  | _ :: r, O => v :: r
  | x :: r, S j => x :: set_item r j v
  end.

(** [np.put(a, ind, v)] with a scalar [v]. *)
Definition np_put (xs : list A) (ind : list nat) (v : A) : list A :=
  fold_left (fun a i => set_item a i v) ind xs.

(** [np.take(a, ind)]; positions outside the array are dropped here
    (numpy raises). *)
Definition np_take (xs : list A) (ind : list nat) : list A :=
  flat_map (fun i => match nth_error xs i with
                     | Some x => [x]
                     | None => []
                     end) ind.

(** [np.repeat(a, counts, axis=0)]: row [i] is written [counts[i]]
    times, rows in their order. *)
Fixpoint np_repeat (xs : list A) (counts : list Z) : list A :=
  match xs, counts with
  | x :: r, c :: cs => repeat x (Z.to_nat c) ++ np_repeat r cs
  | _, _ => []
  end.
End Generic.

(** The entries of [xs] whose companion in [ms] satisfies [p]: what
    [np.take(xs, np.where(p(ms)))] returns on arrays of the same length. *)
Fixpoint select {A B : Type} (p : B -> bool) (ms : list B) (xs : list A)
  : list A :=
  match ms, xs with
  | m :: ms', x :: xs' => if p m then x :: select p ms' xs'
                          else select p ms' xs'
  | _, _ => []
  end.

(** [np.unique] on positions: sorted, without repetition. *)
Fixpoint insert_unique (i : nat) (l : list nat) : list nat :=
  match l with
  | [] => [i]
  | j :: r => if Nat.ltb i j then i :: l
              else if Nat.eqb i j then l
              else j :: insert_unique i r
  end.

Definition np_unique (l : list nat) : list nat :=
  fold_right insert_unique [] l.

(** [np.intersect1d(a, b)]: the sorted, unique values that are in both. *)
Definition intersect1d (a b : list nat) : list nat :=
  filter (fun i => existsb (Nat.eqb i) b) (np_unique a).

End Numpy.

(** ** Unweighting (lines 186-233), on rationals *)

Module Unweighting.
Import Numpy.
Local Open Scope Q_scope.

(** [np.heaviside(x1, x2)]: 0 below zero, [x2] at zero, 1 above. *)
Definition heaviside (x1 x2 : Q) : Q :=
  if negb (Qle_bool 0 x1) then 0
  else if Qeq_bool x1 0 then x2
  else 1.

Definition np_sum (xs : list Q) : Q := fold_left Qplus xs 0.

(** [np.max] of a non-empty array, given as head and tail. *)
Definition np_max (x : Q) (xs : list Q) : Q :=
  fold_left (fun m y => if Qle_bool m y then y else m) xs x.

(** [np.round(x)] and [np.round(x, 4)]: to the nearest, ties to even. *)
Definition rint (x : Q) : Z :=
  let f := Qfloor x in
  match Qcompare (x - inject_Z f) (1 # 2) with
  | Lt => f
  | Gt => (f + 1)%Z
  | Eq => if Z.even f then f else (f + 1)%Z
  end.

Definition np_round4 (x : Q) : Q := inject_Z (rint (x * 10000)) / 10000.

(** [np.asarray(..., dtype=int)] on one value: truncation toward zero. *)
Definition to_int (x : Q) : Z :=
  if Qle_bool 0 x then Qfloor x else Qceiling x.

(** [np.arange(1, stop)] with a float [stop]: [ceil(stop - 1)] values
    1.0, 2.0, ... *)
Definition arange1 (stop : Q) : list Q :=
  map (fun i => inject_Z (1 + Z.of_nat i))
      (seq 0 (Z.to_nat (Qceiling (stop - 1)))).

Definition INQ (n : nat) : Q := inject_Z (Z.of_nat n).

(** Lines 187-194. *)
Definition probs (nnpdf_weights : list Q) (n_reps : nat) : list Q :=
  map (fun w => w / INQ n_reps) nnpdf_weights.

Definition probs_cumul (probs : list Q) (n_reps : nat) : list Q :=
  map (fun rep_num => np_sum (firstn rep_num probs)) (seq 1 n_reps).

(** The body of the inner loop, lines 209-215: the value appended for
    replica [rep_num] and the new replica number [unw_rep_num].
    [probs_cumul] has [n_reps] entries and [rep_num] runs over
    [1..n_reps], so both reads are inside the array. *)
Definition unw_weights_rep_num (probs_cumul : list Q) (unw_n_reps : Q)
    (rep_num : nat) (unw_rep_num : Q) : Q :=
  if Nat.eqb rep_num 1 then
    heaviside (unw_rep_num / unw_n_reps - 0) 1
    * heaviside (nth (rep_num - 1) probs_cumul 0 - unw_rep_num / unw_n_reps) 1
  else
    heaviside (unw_rep_num / unw_n_reps - nth (rep_num - 2) probs_cumul 0) 1
    * heaviside (nth (rep_num - 1) probs_cumul 0 - unw_rep_num / unw_n_reps) 1.

(** Lines 203-218: one row per replica, one column per new replica. *)
Definition unw_weights_list (probs_cumul : list Q) (n_reps : nat)
    (unw_n_reps : Q) : list (list Q) :=
  map (fun rep_num =>
         map (unw_weights_rep_num probs_cumul unw_n_reps rep_num)
             (arange1 (unw_n_reps + 1)))
      (seq 1 n_reps).

Definition sumZ (l : list Z) : Z := fold_left Z.add l 0%Z.

(** Line 219: cast to int, sum along the columns. *)
Definition unw_weights (probs_cumul : list Q) (n_reps : nat)
    (unw_n_reps : Q) : list Z :=
  map (fun row => sumZ (map to_int row))
      (unw_weights_list probs_cumul n_reps unw_n_reps).

(** The cumulative probability below replica [i] (numbered from 1), with
    the convention that it is 0 below the first replica; [cumul_at pc i]
    is [probs_cumul[i-1]]. *)
Definition cumul_at (probs_cumul : list Q) (i : nat) : Q :=
  match i with
  | O => 0
  | S j => nth j probs_cumul 0
  end.

(** The entry of [unw_weights_list] for replica [rep_num] and new replica
    [unw_rep_num] (both numbered from 1), after the cast to int. *)
Definition slot_count (probs_cumul : list Q) (n_reps : nat)
    (unw_n_reps : Q) (rep_num unw_rep_num : nat) : Z :=
  to_int (nth (unw_rep_num - 1)
              (nth (rep_num - 1)
                   (unw_weights_list probs_cumul n_reps unw_n_reps) [])
              0).




(** Lines 187-224 as one stage: [n_eff] is the value of line 170, and
    [unw_n_reps = n_eff] (line 198). *)
Definition unweighting (nnpdf_weights : list Q) (n_reps : nat) (n_eff : Q)
  : result (list Z) :=
  let pc := probs_cumul (probs nnpdf_weights n_reps) n_reps in
  match pc with
  | [] => inl (ValueError "zero-size array to reduction operation maximum which has no identity")
  | c :: cs =>
      if Qeq_bool (np_round4 (np_max c cs)) 1 then
        let unw_n_reps := n_eff in
        let w := unw_weights pc n_reps unw_n_reps in
        if Z.eqb (sumZ w) (Qfloor unw_n_reps) then inr w
        else inl (AssertionError
               "integer weights after unweighting do not satisfy normalization")
      else inl (AssertionError
               "probability cumulants do not add up to 1.0000")
  end.

End Unweighting.

(** ** binary64 values with exact arithmetic *)

Module Float64.
Local Open Scope R_scope.

(** A numpy float: a real number, or one of the values numpy returns
    (with a warning, not an exception) where the real operation has no
    value.  The sign of zero is not kept: every zero divisor of the
    script is a sum of squares, a square root or a count, hence [+0.0]. *)
Inductive float64 : Type :=
| Fin (r : R)
| PInf
| NInf
| NaN.

Definition Rltb (a b : R) : bool := if Rlt_dec a b then true else false.
Definition Reqb (a b : R) : bool := if Req_dec_T a b then true else false.

(** Sign of a real: [Lt] negative, [Eq] zero, [Gt] positive. *)
Definition Rsign (r : R) : comparison :=
  if Rltb r 0 then Lt else if Reqb r 0 then Eq else Gt.

Definition fopp (x : float64) : float64 :=
  match x with
  | Fin r => Fin (- r)
  | PInf => NInf
  | NInf => PInf
  | NaN => NaN
  end.

Definition fadd (x y : float64) : float64 :=
  match x, y with
  | NaN, _ | _, NaN => NaN
  | Fin a, Fin b => Fin (a + b)
  | PInf, NInf | NInf, PInf => NaN
  | PInf, _ | _, PInf => PInf
  | NInf, _ | _, NInf => NInf
  end.

Definition fsub (x y : float64) : float64 := fadd x (fopp y).

(** An infinity times a value of sign [s]. *)
Definition inf_times (positive : bool) (s : comparison) : float64 :=
  match s with
  | Eq => NaN
  | Gt => if positive then PInf else NInf
  | Lt => if positive then NInf else PInf
  end.

Definition fmul (x y : float64) : float64 :=
  match x, y with
  | NaN, _ | _, NaN => NaN
  | Fin a, Fin b => Fin (a * b)
  | PInf, Fin b | Fin b, PInf => inf_times true (Rsign b)
  | NInf, Fin b | Fin b, NInf => inf_times false (Rsign b)
  | PInf, PInf | NInf, NInf => PInf
  | PInf, NInf | NInf, PInf => NInf
  end.

Definition fdiv (x y : float64) : float64 :=
  match x, y with
  | NaN, _ | _, NaN => NaN
  | Fin a, Fin b =>
      if Reqb b 0 then
        match Rsign a with Gt => PInf | Lt => NInf | Eq => NaN end
      else Fin (a / b)
  | Fin _, PInf | Fin _, NInf => Fin 0
  | PInf, Fin b => if Rltb b 0 then NInf else PInf
  | NInf, Fin b => if Rltb b 0 then PInf else NInf
  | PInf, PInf | PInf, NInf | NInf, PInf | NInf, NInf => NaN
  end.

Definition fexp (x : float64) : float64 :=
  match x with
  | Fin r => Fin (exp r)
  | PInf => PInf
  | NInf => Fin 0
  | NaN => NaN
  end.

Definition flog (x : float64) : float64 :=
  match x with
  | Fin r => match Rsign r with
             | Gt => Fin (ln r)
             | Eq => NInf
             | Lt => NaN
             end
  | PInf => PInf
  | NInf => NaN
  | NaN => NaN
  end.

Definition fsqrt (x : float64) : float64 :=
  match x with
  | Fin r => if Rltb r 0 then NaN else Fin (sqrt r)
  | PInf => PInf
  | NInf => NaN
  | NaN => NaN
  end.

(** Whether a real is an integer, and then whether it is odd. *)
Definition is_integer (y : R) : bool := Reqb y (IZR (Int_part y)).
Definition is_odd_integer (y : R) : bool :=
  is_integer y && Z.odd (Int_part y).

(** [x ** y] for a finite exponent [y] (the exponents of the script are
    half integers computed from an integer array). *)
Definition fpow (x : float64) (y : R) : float64 :=
  if Reqb y 0 then Fin 1
  else
    match x with
    | NaN => NaN
    | Fin r =>
        match Rsign r with
        | Gt => Fin (Rpower r y)
        | Eq => if Rltb y 0 then PInf else Fin 0
        | Lt => if is_integer y then Fin (powerRZ r (Int_part y)) else NaN
        end
    | PInf => if Rltb y 0 then Fin 0 else PInf
    | NInf => if Rltb y 0 then Fin 0
              else if is_odd_integer y then NInf else PInf
    end.

(** Comparisons: false as soon as one side is [nan]. *)
Definition flt (x y : float64) : bool :=
  match x, y with
  | NaN, _ | _, NaN => false
  | Fin a, Fin b => Rltb a b
  | _, NInf => false
  | NInf, _ => true
  | PInf, _ => false
  | _, PInf => true
  end.

Definition fgt (x y : float64) : bool := flt y x.

Definition feq (x y : float64) : bool :=
  match x, y with
  | Fin a, Fin b => Reqb a b
  | PInf, PInf | NInf, NInf => true
  | _, _ => false
  end.

(** [np.sum] of a one dimensional array. *)
Definition np_sum (xs : list float64) : float64 :=
  fold_left fadd xs (Fin 0).

(** [np.mean] of a one dimensional array. *)
Definition np_mean (xs : list float64) : float64 :=
  fdiv (np_sum xs) (Fin (INR (length xs))).

(** [np.round] of a real: nearest integer, ties to even. *)
Definition Rrint (r : R) : Z :=
  let f := Int_part r in
  if Rltb (r - IZR f) (1 / 2) then f
  else if Rltb (1 / 2) (r - IZR f) then (f + 1)%Z
  else if Z.even f then f else (f + 1)%Z.

Definition np_round (x : float64) : float64 :=
  match x with
  | Fin r => Fin (IZR (Rrint r))
  | other => other
  end.

(** The sum of a list of reals, and the power [b ^ y] of a real base
    [b >= 0] to a real exponent [y >= 0] (with [0 ^ 0 = 1]), used to state
    what the float operations return on finite values. *)
Definition sum_R (l : list R) : R := fold_right Rplus 0 l.

Definition Rpow (b y : R) : R :=
  if Reqb y 0 then 1 else if Reqb b 0 then 0 else Rpower b y.

(** Python [1 / n] on two ints. *)
Definition py_div_int (a b : Z) : result float64 :=
  if Z.eqb b 0 then inl ZeroDivisionError
  else inr (Fin (IZR a / IZR b)).

End Float64.

(** ** Reweighting, moments and validation (lines 127-178, 226-233, 271-289) *)

Module Reweighting.
Import Numpy Float64.
Local Open Scope R_scope.

(** Lines 149-155.  [chi2_all_reps] and [n_datapoints] are the first two
    columns of [chi2_array], so they have the same length; [n_reps] is
    the Python int of the settings. *)
Definition unnormalized_weights (chi2_all_reps : list float64)
    (n_datapoints : list Z) (scaling_factor : float64) : list float64 :=
  map (fun cn : float64 * Z =>
         let (chi2, n) := cn in
         fmul (fpow (fdiv chi2 (fmul scaling_factor scaling_factor))
                    (1 / 2 * IZR (n - 1)))
              (fexp (fdiv (fmul (Fin (- 1 / 2)) chi2)
                          (fmul scaling_factor scaling_factor))))
      (combine chi2_all_reps n_datapoints).

Definition calculate_weights (chi2_all_reps : list float64)
    (n_datapoints : list Z) (n_reps : nat) (scaling_factor : float64)
  : list float64 :=
  let uw := unnormalized_weights chi2_all_reps n_datapoints scaling_factor in
  let normalization := fdiv (np_sum uw) (Fin (INR n_reps)) in
  map (fun w => fdiv w normalization) uw.

(** The weight of a replica before normalization, on reals: the formula
    the float expression of line 151 computes for [chi2 >= 0],
    [n >= 1] data points and a non-zero scaling factor [s]. *)
Definition weight_formula (s chi2 : R) (n : Z) : R :=
  Rpow (chi2 / s ^ 2) ((IZR n - 1) / 2) * exp (- chi2 / (2 * s ^ 2)).

(** Lines 160-163: the replaced positions, the array after [np.put], and
    the number printed on line 163. *)
Definition tiny : R := / IZR (10 ^ 300).


Definition zero_weights (nnpdf_weights : list float64) : list nat :=
  np_where (fun w => flt w (Fin tiny)) nnpdf_weights.

Definition replace_small_weights (nnpdf_weights : list float64)
  : list float64 * nat :=
  let zw := zero_weights nnpdf_weights in
  (np_put nnpdf_weights zw (Fin tiny), length zw).

(** Lines 157-167 as one stage: the weights with scaling factor 1, the
    replacement of the small ones, the assertion on the sum.  Returns
    the weights and the number of replaced entries. *)
Definition reweighting (chi2_all_reps : list float64)
    (n_datapoints : list Z) (n_reps : nat) : result (list float64 * nat) :=
  let w0 := calculate_weights chi2_all_reps n_datapoints n_reps (Fin 1) in
  let (nnpdf_weights, replaced) := replace_small_weights w0 in
  if feq (np_round (np_sum nnpdf_weights)) (Fin (INR n_reps))
  then inr (nnpdf_weights, replaced)
  else inl (AssertionError "sum of weights should equal number of replicas").

(** Line 170. *)
Definition n_eff (nnpdf_weights : list float64) (n_reps : nat)
  : result float64 :=
  match py_div_int 1 (Z.of_nat n_reps) with
  | inl e => inl e
  | inr c =>
      inr (fexp (fmul c (np_sum
             (map (fun w => fmul w (flog (fdiv (Fin (INR n_reps)) w)))
                  nnpdf_weights))))
  end.


(** *** Moments.  The arrays of coefficients have one row per replica and
    one column per operator, and every reduction of the script runs along
    [axis=0]; the definitions below take one column. *)

Definition fsquare (x : float64) : float64 := fmul x x.

Definition sum_sq_dev (col : list float64) (center : float64) : float64 :=
  np_sum (map (fun x => fsquare (fsub x center)) col).

(** The squared deviation of a real [x] from a centre [m]. *)
Definition sq_dev (m x : R) : R := (x - m) * (x - m).

(** Lines 129-131 (prior) and 273-275 (posterior). *)
Definition prior_means (col : list float64) : float64 := np_mean col.

Definition prior_variances (col : list float64) (n_reps : nat)
  : result float64 :=
  match py_div_int 1 (Z.of_nat n_reps - 1) with
  | inl e => inl e
  | inr c => inr (fmul c (sum_sq_dev col (prior_means col)))
  end.

Definition prior_st_devs (col : list float64) (n_reps : nat)
  : result float64 :=
  match prior_variances col n_reps with
  | inl e => inl e
  | inr v => inr (fsqrt v)
  end.

Definition poster_st_devs (col : list float64) (n_reps : nat)
  : result float64 := prior_st_devs col n_reps.

(** Lines 174-178. *)
Definition rw_coeffs (nnpdf_weights col : list float64) : list float64 :=
  map (fun wx : float64 * float64 => fmul (fst wx) (snd wx))
      (combine nnpdf_weights col).

Definition rw_means (nnpdf_weights col : list float64) : float64 :=
  np_mean (rw_coeffs nnpdf_weights col).

Definition rw_variances (nnpdf_weights col : list float64) (n_reps : nat)
  : result float64 :=
  match py_div_int 1 (Z.of_nat n_reps - 1) with
  | inl e => inl e
  | inr c =>
      inr (fmul c (np_sum
             (map (fun wx : float64 * float64 =>
                     fmul (fst wx)
                          (fsquare (fsub (snd wx) (rw_means nnpdf_weights col))))
                  (combine nnpdf_weights col))))
  end.

Definition rw_st_devs (nnpdf_weights col : list float64) (n_reps : nat)
  : result float64 :=
  match rw_variances nnpdf_weights col n_reps with
  | inl e => inl e
  | inr v => inr (fsqrt v)
  end.

(** Lines 227-233.  [unw_n_reps] is the float [n_eff] of line 198, so
    [1/(unw_n_reps-1)] is a numpy division. *)
Definition surv_rep_nums (unw_weights : list Z) : list nat :=
  np_where (fun c => negb (Z.eqb c 0)) unw_weights.

Definition unw_coeffs (col : list float64) (unw_weights : list Z)
  : list float64 :=
  let surv := surv_rep_nums unw_weights in
  let surv_prior_coeffs := np_take col surv in
  let n_copies := np_take unw_weights surv in
  np_repeat surv_prior_coeffs n_copies.

Definition unw_means (unw_coeffs : list float64) : float64 :=
  np_mean unw_coeffs.

Definition unw_variances (unw_coeffs : list float64) (unw_n_reps : float64)
  : float64 :=
  fmul (fdiv (Fin 1) (fsub unw_n_reps (Fin 1)))
       (sum_sq_dev unw_coeffs (unw_means unw_coeffs)).

Definition unw_st_devs (unw_coeffs : list float64) (unw_n_reps : float64)
  : float64 :=
  fsqrt (unw_variances unw_coeffs unw_n_reps).

(** Lines 278-284: one entry per operator. *)
Definition reduction (st_devs prior_st_devs : list float64) : list float64 :=
  let raw := map (fun sp : float64 * float64 =>
                    fsub (Fin 1) (fdiv (fst sp) (snd sp)))
                 (combine st_devs prior_st_devs) in
  let no_reduction := np_where (fun r => flt r (Fin 0)) raw in
  np_put raw no_reduction (Fin 0).

Definition reduction_poster (poster_st_devs prior_st_devs : list float64)
  : list float64 := reduction poster_st_devs prior_st_devs.

Definition reduction_rw (rw_st_devs prior_st_devs : list float64)
  : list float64 := reduction rw_st_devs prior_st_devs.

(** Lines 287-289. *)
Definition ops_satisfy_ks (ks_stats : list float64) (ks_level : float64)
  : list nat :=
  np_where (fun k => fgt k ks_level) ks_stats.

Definition ops_satisfy_red (reduction_poster : list float64)
    (reduction_level : float64) : list nat :=
  np_where (fun r => fgt r reduction_level) reduction_poster.

Definition constr_op_nums (ks_stats reduction_poster : list float64)
    (ks_level reduction_level : float64) : list nat :=
  intersect1d (ops_satisfy_ks ks_stats ks_level)
              (ops_satisfy_red reduction_poster reduction_level).

End Reweighting.

(** ** Saving the unweighted set (lines 407-421): the header *)

Module Output.
Local Open Scope string_scope.

Fixpoint spaces (n : nat) : string :=
  match n with
  | O => ""
  | S m => String (Ascii.ascii_of_nat 32) (spaces m)
  end.

(** ['{:^11}'.format(name)]: the name centred in 11 characters, the odd
    space on the right; a longer name is left as it is. *)
Definition format_center (width : nat) (name : string) : string :=
  let total := (width - String.length name)%nat in
  let left := (total / 2)%nat in
  spaces left ++ name ++ spaces (total - left).

Definition formatted_name (name : string) : string := format_center 11 name.

(** Lines 410-414. *)
Definition names_header (op_names : list string) : string :=
  String.concat "" (map formatted_name op_names).

End Output.

(** ** Facts on the array helpers *)

Section NumpyFacts.
Import Numpy.
Context {A : Type}.
Implicit Types (p : A -> bool) (xs : list A) (v : A).

Lemma in_where_from p xs : forall k i,
  In i (where_from k p xs) <->
  exists j x, i = (k + j)%nat /\ nth_error xs j = Some x /\ p x = true.
Proof.
  induction xs as [|a r IH]; intros k i; simpl.
  - split; [tauto|]. intros (j & x & _ & H & _). destruct j; discriminate.
  - assert (Hr : In i (where_from (S k) p r) <->
                 exists j x, i = (k + S j)%nat /\ nth_error r j = Some x
                             /\ p x = true).
    { rewrite IH. split; intros (j & x & E & H); exists j, x;
        (split; [lia | exact H]). }
    destruct (p a) eqn:Pa; simpl; rewrite Hr; split.
    + intros [E | (j & x & E & H)].
      * exists 0%nat, a. simpl. repeat split; auto. lia.
      * exists (S j), x. simpl. auto.
    + intros (j & x & E & H & Px). destruct j as [|j]; simpl in H.
      * left. lia.
      * right. exists j, x. auto.
    + intros (j & x & E & H). exists (S j), x. simpl. auto.
    + intros (j & x & E & H & Px). destruct j as [|j]; simpl in H.
      * injection H as ->. congruence.
      * exists j, x. auto.
Qed.

Lemma in_np_where p xs i :
  In i (np_where p xs) <-> exists x, nth_error xs i = Some x /\ p x = true.
Proof.
  unfold np_where. rewrite in_where_from. split.
  - intros (j & x & -> & H). exists x. exact H.
  - intros (x & H). exists i, x. auto.
Qed.

Lemma length_where_from p xs : forall k,
  length (where_from k p xs) = length (filter p xs).
Proof.
  induction xs as [|a r IH]; intros k; simpl; [reflexivity|].
  destruct (p a); simpl; rewrite IH; reflexivity.
Qed.

Lemma length_np_where p xs :
  length (np_where p xs) = length (filter p xs).
Proof. apply length_where_from. Qed.

Lemma nth_error_set_item xs : forall i v n,
  nth_error (set_item xs i v) n =
  if Nat.eqb n i then option_map (fun _ => v) (nth_error xs n)
  else nth_error xs n.
Proof.
  induction xs as [|a r IH]; intros i v n; simpl.
  - destruct n, i; simpl; try reflexivity; destruct (Nat.eqb n i); reflexivity.
  - destruct i as [|i]; destruct n as [|n]; simpl; try reflexivity.
    apply IH.
Qed.

Lemma nth_error_np_put ind : forall xs v n,
  nth_error (np_put xs ind v) n =
  if existsb (Nat.eqb n) ind then option_map (fun _ => v) (nth_error xs n)
  else nth_error xs n.
Proof.
  unfold np_put.
  induction ind as [|i r IH]; intros xs v n; simpl; [reflexivity|].
  rewrite IH, nth_error_set_item.
  destruct (Nat.eqb n i); simpl.
  - destruct (existsb _ r); destruct (nth_error xs n); reflexivity.
  - reflexivity.
Qed.

(** [np.put] at the positions of [np.where] is a pointwise replacement. *)
Lemma np_put_where p xs v :
  np_put xs (np_where p xs) v = map (fun x => if p x then v else x) xs.
Proof.
  apply nth_error_ext. intros n.
  rewrite nth_error_np_put, nth_error_map.
  destruct (existsb (Nat.eqb n) (np_where p xs)) eqn:E.
  - apply existsb_exists in E. destruct E as (i & Hi & En).
    apply Nat.eqb_eq in En. subst i.
    apply in_np_where in Hi. destruct Hi as (x & Hx & Px).
    rewrite Hx. simpl. rewrite Px. reflexivity.
  - destruct (nth_error xs n) as [x|] eqn:Hx; simpl; [|reflexivity].
    destruct (p x) eqn:Px; [|reflexivity].
    exfalso. apply Bool.not_true_iff_false in E. apply E.
    apply existsb_exists. exists n. split; [|apply Nat.eqb_refl].
    apply in_np_where. exists x. auto.
Qed.

Lemma length_np_repeat xs : forall counts,
  length xs = length counts ->
  Forall (fun c => (0 <= c)%Z) counts ->
  Z.of_nat (length (np_repeat xs counts)) = fold_left Z.add counts 0%Z.
Proof.
  assert (G : forall counts a, fold_left Z.add counts a
                               = (a + fold_left Z.add counts 0)%Z).
  { induction counts as [|c r IH]; intros a; simpl; [lia|].
    rewrite IH, (IH c). lia. }
  induction xs as [|x r IH]; intros [|c cs] HL HF; simpl in *;
    try discriminate; [reflexivity|].
  inversion HF; subst.
  rewrite length_app, repeat_length, Nat2Z.inj_add, IH, (G cs c); auto.
  lia.
Qed.
End NumpyFacts.

Section UniqueFacts.
Import Numpy.

Lemma in_insert_unique i l j :
  In j (insert_unique i l) <-> j = i \/ In j l.
Proof.
  induction l as [|a r IH]; simpl.
  - intuition.
  - destruct (Nat.ltb i a) eqn:L; simpl; [intuition|].
    destruct (Nat.eqb i a) eqn:E; simpl.
    + apply Nat.eqb_eq in E. subst. intuition.
    + rewrite IH. intuition.
Qed.

Lemma in_np_unique l j : In j (np_unique l) <-> In j l.
Proof.
  induction l as [|a r IH]; simpl; [tauto|].
  rewrite in_insert_unique, IH. intuition.
Qed.

Lemma in_intersect1d a b j :
  In j (intersect1d a b) <-> In j a /\ In j b.
Proof.
  unfold intersect1d. rewrite filter_In, in_np_unique, existsb_exists.
  split.
  - intros (Ha & x & Hx & E). apply Nat.eqb_eq in E. subst. auto.
  - intros (Ha & Hb). split; auto. exists j. split; auto.
    apply Nat.eqb_refl.
Qed.

(** Strictly increasing lists of positions. *)
Lemma insert_unique_sorted i l :
  StronglySorted lt l -> StronglySorted lt (insert_unique i l).
Proof.
  induction 1 as [|a r Hs IH Hf]; simpl.
  - repeat constructor.
  - destruct (Nat.ltb i a) eqn:L.
    + apply Nat.ltb_lt in L. constructor.
      * constructor; auto.
      * constructor; auto. eapply Forall_impl; [|exact Hf].
        simpl; intros; lia.
    + destruct (Nat.eqb i a) eqn:E.
      * constructor; auto.
      * apply Nat.ltb_ge in L. apply Nat.eqb_neq in E.
        constructor; auto.
        apply Forall_forall. intros x Hx.
        apply in_insert_unique in Hx. destruct Hx as [->|Hx]; [lia|].
        rewrite Forall_forall in Hf. auto.
Qed.

Lemma np_unique_sorted l : StronglySorted lt (np_unique l).
Proof.
  induction l as [|a r IH]; simpl; [constructor|].
  apply insert_unique_sorted, IH.
Qed.

Lemma filter_sorted (f : nat -> bool) l :
  StronglySorted lt l -> StronglySorted lt (filter f l).
Proof.
  induction 1 as [|a r Hs IH Hf]; simpl; [constructor|].
  destruct (f a); auto. constructor; auto.
  apply Forall_forall. intros x Hx. apply filter_In in Hx.
  rewrite Forall_forall in Hf. apply Hf, Hx.
Qed.

Lemma intersect1d_sorted a b : StronglySorted lt (intersect1d a b).
Proof. apply filter_sorted, np_unique_sorted. Qed.
End UniqueFacts.

(** ** Facts on the unweighting *)

Section UnweightingFacts.
Import Numpy Unweighting.
Local Open Scope Q_scope.

Lemma heaviside_one (x : Q) : 0 <= x -> heaviside x 1 = 1.
Proof.
  intros H. unfold heaviside.
  apply Qle_bool_iff in H. rewrite H. simpl.
  destruct (Qeq_bool x 0); reflexivity.
Qed.

Lemma heaviside_zero (x y : Q) : x < 0 -> heaviside x y = 0.
Proof.
  intros H. unfold heaviside.
  destruct (Qle_bool 0 x) eqn:E; simpl; [|reflexivity].
  apply Qle_bool_iff in E. lra.
Qed.

(** The two factors of lines 210-215 on the closed interval: the product
    is 1 from the lower to the upper cumulative probability, both
    included, and 0 outside. *)
Lemma heaviside_product (lo hi pt : Q) :
  to_int (heaviside (pt - lo) 1 * heaviside (hi - pt) 1)
  = if Qle_bool lo pt && Qle_bool pt hi then 1%Z else 0%Z.
Proof.
  destruct (Qle_bool lo pt) eqn:E1; simpl.
  - apply Qle_bool_iff in E1.
    rewrite (heaviside_one (pt - lo)) by lra.
    destruct (Qle_bool pt hi) eqn:E2.
    + apply Qle_bool_iff in E2. rewrite heaviside_one by lra. reflexivity.
    + rewrite heaviside_zero; [reflexivity|].
      destruct (Qlt_le_dec (hi - pt) 0) as [L|L]; [exact L|].
      assert (pt <= hi) as F by lra. apply Qle_bool_iff in F. congruence.
  - rewrite (heaviside_zero (pt - lo)).
    + destruct (heaviside (hi - pt) 1) as [n d]. reflexivity.
    + destruct (Qlt_le_dec (pt - lo) 0) as [L|L]; [exact L|].
      assert (lo <= pt) as F by lra. apply Qle_bool_iff in F. congruence.
Qed.

Lemma unw_weights_rep_num_cumul pc n (i : nat) (t : Q) :
  (1 <= i)%nat ->
  unw_weights_rep_num pc n i t
  = heaviside (t / n - cumul_at pc (i - 1)) 1
    * heaviside (cumul_at pc i - t / n) 1.
Proof.
  intros Hi. unfold unw_weights_rep_num.
  destruct i as [|[|i]]; [lia| reflexivity |].
  simpl. rewrite Nat.sub_0_r. reflexivity.
Qed.


Lemma length_arange1 (stop : Q) :
  length (arange1 stop) = Z.to_nat (Qceiling (stop - 1)).
Proof. unfold arange1. rewrite length_map, length_seq. reflexivity. Qed.


Lemma Qceiling_plus_minus_1 (n : Q) : Qceiling (n + 1 - 1) = Qceiling n.
Proof. apply Qceiling_comp. ring. Qed.



(** *** Sums of integers *)

Lemma sumZ_acc (l : list Z) : forall a,
  fold_left Z.add l a = (a + sumZ l)%Z.
Proof.
  unfold sumZ. induction l as [|x r IH]; intros a; simpl; [lia|].
  rewrite IH, (IH x). lia.
Qed.

Lemma sumZ_cons (x : Z) (l : list Z) : sumZ (x :: l) = (x + sumZ l)%Z.
Proof. unfold sumZ at 1. simpl. apply sumZ_acc. Qed.

Lemma sumZ_nonneg (l : list Z) :
  Forall (fun x => (0 <= x)%Z) l -> (0 <= sumZ l)%Z.
Proof.
  induction 1 as [|x r Hx _ IH]; [unfold sumZ; simpl; lia|].
  rewrite sumZ_cons. lia.
Qed.





(** *** The multiplicities are sums of zeros and ones *)

Lemma unw_weights_as_table pc n_reps n :
  unw_weights pc n_reps n
  = map (fun i => sumZ (map (fun t => to_int (unw_weights_rep_num pc n i t))
                            (arange1 (n + 1))))
        (seq 1 n_reps).
Proof.
  unfold unw_weights, unw_weights_list.
  rewrite map_map. apply map_ext. intros i. rewrite map_map. reflexivity.
Qed.

Lemma to_int_entry_range pc n (i : nat) (t : Q) :
  (1 <= i)%nat ->
  (0 <= to_int (unw_weights_rep_num pc n i t) <= 1)%Z.
Proof.
  intros Hi. rewrite unw_weights_rep_num_cumul by exact Hi.
  rewrite heaviside_product. destruct (_ && _); lia.
Qed.

Lemma unw_weights_nonneg pc n_reps n :
  Forall (fun m => (0 <= m)%Z) (unw_weights pc n_reps n).
Proof.
  rewrite unw_weights_as_table. apply Forall_forall. intros m Hm.
  apply in_map_iff in Hm. destruct Hm as (i & <- & Hi).
  apply in_seq in Hi. apply sumZ_nonneg, Forall_forall.
  intros z Hz. apply in_map_iff in Hz. destruct Hz as (t & <- & _).
  apply to_int_entry_range. lia.
Qed.

(** *** One new replica, along the replicas *)






(** *** The cumulative probabilities *)





Lemma length_probs_cumul (p : list Q) (n_reps : nat) :
  length (probs_cumul p n_reps) = n_reps.
Proof. unfold probs_cumul. rewrite length_map, length_seq. reflexivity. Qed.













(** *** Counting the new replicas that fall at or below 1 *)







Lemma unweighting_outcome (w : list Q) (n_reps : nat) (n_eff : Q) :
  match unweighting w n_reps n_eff with
  | inr r => r = unw_weights (probs_cumul (probs w n_reps) n_reps) n_reps n_eff
             /\ sumZ r = Qfloor n_eff
  | inl _ => True
  end.
Proof.
  unfold unweighting.
  destruct (probs_cumul (probs w n_reps) n_reps) as [|c cs]; [exact I|].
  destruct (Qeq_bool _ 1); [|exact I].
  destruct (Z.eqb_spec (sumZ (unw_weights (c :: cs) n_reps n_eff))
                       (Qfloor n_eff)) as [E|E]; [|exact I].
  split; [reflexivity | exact E].
Qed.








(** On a tie the script counts the new replica twice: with two equal
    weights and [n_eff = 2] the point 1/2 is the cumulative probability
    of replica 1, both replicas get the count, and the stage ends on
    the assertion of line 222. *)
Example slot_count_tie :
  let pc := probs_cumul (probs [1; 1] 2) 2 in
  slot_count pc 2 2 1 1 = 1%Z
  /\ slot_count pc 2 2 2 1 = 1%Z
  /\ unw_weights pc 2 2 = [1%Z; 2%Z]
  /\ unweighting [1; 1] 2 2
     = inl (AssertionError
              "integer weights after unweighting do not satisfy normalization").
Proof. repeat split; reflexivity. Qed.

(** The four replicas with chi2 1, 2, 3, 4 and two data points each:
    weights 1.359984, 1.166546, 0.866563, 0.606907 and [n_eff] =
    3.832915 (six decimals).  The new replicas fall at 0.26, 0.52 and
    0.78; the fourth point, 1.04, is above every cumulative
    probability. *)
Example unweighting_four_replicas :
  unweighting [1359984 # 1000000; 1166546 # 1000000;
               866563 # 1000000; 606907 # 1000000] 4 (3832915 # 1000000)
  = inr [1%Z; 1%Z; 1%Z; 0%Z].
Proof. vm_compute. reflexivity. Qed.

End UnweightingFacts.

(** ** Facts on the float operations *)

Section Float64Facts.
Import Float64.
Local Open Scope R_scope.

Lemma Rltb_true (a b : R) : Rltb a b = true <-> a < b.
Proof. unfold Rltb. destruct (Rlt_dec a b); split; intros; auto; discriminate. Qed.

Lemma Rltb_lt (a b : R) : a < b -> Rltb a b = true.
Proof. apply Rltb_true. Qed.

Lemma Rltb_ge (a b : R) : b <= a -> Rltb a b = false.
Proof.
  intros H. destruct (Rltb a b) eqn:E; [|reflexivity].
  apply Rltb_true in E. lra.
Qed.

Lemma Reqb_true (a b : R) : Reqb a b = true <-> a = b.
Proof. unfold Reqb. destruct (Req_dec_T a b); split; intros; auto; discriminate. Qed.

Lemma Reqb_eq (a : R) : Reqb a a = true.
Proof. apply Reqb_true. reflexivity. Qed.

Lemma Reqb_neq (a b : R) : a <> b -> Reqb a b = false.
Proof.
  intros H. destruct (Reqb a b) eqn:E; [|reflexivity].
  apply Reqb_true in E. contradiction.
Qed.

Lemma Rsign_pos (r : R) : 0 < r -> Rsign r = Gt.
Proof.
  intros H. unfold Rsign. rewrite Rltb_ge, Reqb_neq by lra. reflexivity.
Qed.

Lemma Rsign_zero : Rsign 0 = Eq.
Proof. unfold Rsign. rewrite Rltb_ge, Reqb_eq by lra. reflexivity. Qed.

Lemma fdiv_Fin (a b : R) : b <> 0 -> fdiv (Fin a) (Fin b) = Fin (a / b).
Proof. intros H. unfold fdiv. rewrite Reqb_neq by exact H. reflexivity. Qed.

Lemma np_sum_Fin (l : list R) : np_sum (map Fin l) = Fin (sum_R l).
Proof.
  unfold np_sum.
  assert (G : forall a, fold_left fadd (map Fin l) (Fin a) = Fin (a + sum_R l)).
  { induction l as [|x r IH]; intros a; simpl.
    - f_equal. lra.
    - rewrite IH. f_equal. lra. }
  rewrite G. f_equal. lra.
Qed.

Lemma sum_R_nonneg (l : list R) : Forall (fun x => 0 <= x) l -> 0 <= sum_R l.
Proof.
  induction 1 as [|x r Hx _ IH]; simpl; lra.
Qed.



End Float64Facts.

(** ** Facts on the reweighting and the validation *)

Section ReweightingFacts.
Import Numpy Float64 Reweighting.
Local Open Scope R_scope.

(** C7.  [replace_small_weights] keeps the length, writes [1e-300] where
    the weight compares below [1e-300] and leaves every other entry as it
    was, and the number it reports is the number of entries below
    [1e-300]; on finite weights "below" is [<] on the reals. *)
Theorem replace_small_weights_spec (nnpdf_weights : list float64) :
  let w' := fst (replace_small_weights nnpdf_weights) in
  let reported := snd (replace_small_weights nnpdf_weights) in
  length w' = length nnpdf_weights
  /\ (forall i w, nth_error nnpdf_weights i = Some w ->
        nth_error w' i = Some (if flt w (Fin tiny) then Fin tiny else w))
  /\ (forall i r, nth_error nnpdf_weights i = Some (Fin r) ->
        (r < tiny -> nth_error w' i = Some (Fin tiny))
        /\ (tiny <= r -> nth_error w' i = Some (Fin r)))
  /\ reported
     = length (filter (fun w => flt w (Fin tiny)) nnpdf_weights)
  /\ reported = length (zero_weights nnpdf_weights)
  /\ (forall i, In i (zero_weights nnpdf_weights) <->
        exists w, nth_error nnpdf_weights i = Some w
                  /\ flt w (Fin tiny) = true).
Proof.
  cbv zeta. unfold replace_small_weights, zero_weights. cbn [fst snd].
  rewrite np_put_where, length_map, length_np_where.
  split; [reflexivity|].
  assert (H : forall i w, nth_error nnpdf_weights i = Some w ->
     nth_error (map (fun x => if flt x (Fin tiny) then Fin tiny else x)
                    nnpdf_weights) i
     = Some (if flt w (Fin tiny) then Fin tiny else w)).
  { intros i w Hw. rewrite nth_error_map, Hw. reflexivity. }
  split; [exact H|].
  split.
  { intros i r Hr. specialize (H i _ Hr). cbn [flt] in H. split; intros L.
    - rewrite Rltb_lt in H by exact L. exact H.
    - rewrite Rltb_ge in H by exact L. exact H. }
  split; [reflexivity|]. split; [reflexivity|].
  intros i. apply in_np_where.
Qed.

Lemma fgt_Fin (a b : R) : fgt (Fin a) (Fin b) = true <-> b < a.
Proof. unfold fgt. cbn [flt]. apply Rltb_true. Qed.

(** C8.  The selected operators are exactly the positions whose KS
    statistic compares above [ks_level] and whose reduction compares
    above [reduction_level], that is the positions common to the two
    arrays of positions that pass one test; the comparison is the strict
    [<] on finite values, and the result is strictly increasing. *)
Theorem constr_op_nums_spec (ks_stats reduction_poster : list float64)
    (ks_level reduction_level : float64) :
  (forall idx,
     In idx (constr_op_nums ks_stats reduction_poster ks_level reduction_level)
     <-> exists k r,
           nth_error ks_stats idx = Some k
           /\ nth_error reduction_poster idx = Some r
           /\ fgt k ks_level = true /\ fgt r reduction_level = true)
  /\ (forall idx,
        In idx (constr_op_nums ks_stats reduction_poster
                               ks_level reduction_level)
        <-> In idx (ops_satisfy_ks ks_stats ks_level)
            /\ In idx (ops_satisfy_red reduction_poster reduction_level))
  /\ StronglySorted lt
       (constr_op_nums ks_stats reduction_poster ks_level reduction_level)
  /\ (forall a b : R, fgt (Fin a) (Fin b) = true <-> b < a).
Proof.
  unfold constr_op_nums, ops_satisfy_ks, ops_satisfy_red.
  split; [|split; [|split]].
  - intros idx. rewrite in_intersect1d, !in_np_where. split.
    + intros ((k & Hk & Gk) & (r & Hr & Gr)). exists k, r. auto.
    + intros (k & r & Hk & Hr & Gk & Gr). split; eauto.
  - intros idx. apply in_intersect1d.
  - apply intersect1d_sorted.
  - apply fgt_Fin.
Qed.

(** *** The reduction of the standard deviations *)

Lemma reduction_pointwise (st_devs prior_st_devs : list float64) :
  reduction st_devs prior_st_devs
  = map (fun sp : float64 * float64 =>
           let raw := fsub (Fin 1) (fdiv (fst sp) (snd sp)) in
           if flt raw (Fin 0) then Fin 0 else raw)
        (combine st_devs prior_st_devs).
Proof.
  unfold reduction. rewrite np_put_where, map_map. reflexivity.
Qed.

Lemma nth_error_combine {A B : Type} : forall (l : list A) (l' : list B) j a b,
  nth_error l j = Some a -> nth_error l' j = Some b ->
  nth_error (combine l l') j = Some (a, b).
Proof.
  induction l as [|x l IH]; intros [|y l'] [|j] a b Ha Hb; simpl in *;
    try discriminate.
  - congruence.
  - apply IH; assumption.
Qed.

Lemma nth_error_reduction (st_devs prior_st_devs : list float64) j s p :
  nth_error st_devs j = Some s -> nth_error prior_st_devs j = Some p ->
  nth_error (reduction st_devs prior_st_devs) j
  = Some (let raw := fsub (Fin 1) (fdiv s p) in
          if flt raw (Fin 0) then Fin 0 else raw).
Proof.
  intros Hs Hp. rewrite reduction_pointwise, nth_error_map.
  rewrite (nth_error_combine _ _ _ _ _ Hs Hp). reflexivity.
Qed.

Lemma reduction_value_pos_ref (c p : R) :
  0 < p ->
  (let raw := fsub (Fin 1) (fdiv (Fin c) (Fin p)) in
   if flt raw (Fin 0) then Fin 0 else raw)
  = Fin (Rmax 0 (1 - c / p)).
Proof.
  intros Hp. cbv zeta. rewrite fdiv_Fin by lra. cbn [fsub fopp fadd flt].
  replace (1 + - (c / p)) with (1 - c / p) by lra.
  destruct (Rlt_le_dec (1 - c / p) 0) as [L|L].
  - rewrite Rltb_lt by exact L. rewrite Rmax_left by lra. reflexivity.
  - rewrite Rltb_ge by exact L. rewrite Rmax_right by lra. reflexivity.
Qed.

Lemma reduction_value_zero_ref (c : R) :
  (let raw := fsub (Fin 1) (fdiv (Fin c) (Fin 0)) in
   if flt raw (Fin 0) then Fin 0 else raw)
  = if Rltb c 0 then PInf else if Reqb c 0 then NaN else Fin 0.
Proof.
  cbv zeta. unfold fdiv. rewrite Reqb_eq. unfold Rsign.
  destruct (Rltb c 0); [reflexivity|].
  destruct (Reqb c 0); reflexivity.
Qed.

(** C9 (as amended).  For non-negative standard deviations that are not
    both zero the reduction is a number of [0,1]: [max(0, 1 - s/p)] when
    the reference [p] is positive, and 0 when the reference is zero (the
    raw value is then [-inf]). *)
Theorem reduction_in_unit_interval (st_devs prior_st_devs : list float64)
    (j : nat) (s p : R) :
  nth_error st_devs j = Some (Fin s) ->
  nth_error prior_st_devs j = Some (Fin p) ->
  0 <= s -> 0 <= p -> 0 < s \/ 0 < p ->
  exists r,
    nth_error (reduction st_devs prior_st_devs) j = Some (Fin r)
    /\ 0 <= r <= 1
    /\ (0 < p -> r = Rmax 0 (1 - s / p))
    /\ (p = 0 -> r = 0).
Proof.
  intros Hs Hp Hs0 Hp0 Hnz.
  rewrite (nth_error_reduction _ _ _ _ _ Hs Hp).
  destruct (Rle_lt_or_eq_dec 0 p Hp0) as [Lp | Ep].
  - rewrite reduction_value_pos_ref by exact Lp.
    exists (Rmax 0 (1 - s / p)). split; [reflexivity|].
    assert (0 <= s / p).
    { unfold Rdiv. apply Rmult_le_pos; [exact Hs0|].
      left. apply Rinv_0_lt_compat. exact Lp. }
    split; [|split; [reflexivity | lra]].
    split; [apply Rmax_l | apply Rmax_lub; lra].
  - subst p. rewrite reduction_value_zero_ref.
    assert (Ls : 0 < s) by (destruct Hnz; lra).
    rewrite Rltb_ge, Reqb_neq by lra.
    exists 0. split; [reflexivity|]. split; [lra|]. split; [lra | reflexivity].
Qed.

Lemma reduction_in_unit_interval_witness :
  exists r,
    nth_error (reduction [Fin 1] [Fin 2]) 0 = Some (Fin r)
    /\ 0 <= r <= 1
    /\ (0 < 2 -> r = Rmax 0 (1 - 1 / 2))
    /\ (2 = 0 -> r = 0).
Proof.
  apply (reduction_in_unit_interval [Fin 1] [Fin 2] 0 1 2).
  - reflexivity.
  - reflexivity.
  - lra.
  - lra.
  - left; lra.
Defined.

(** C9 as stated fails at two zero standard deviations: [0/0] is [nan],
    which the test [< 0] does not replace. *)
Lemma reduction_nan_at_zero :
  reduction_poster [Fin 0] [Fin 0] = [NaN]
  /\ ~ (exists r, nth_error (reduction_poster [Fin 0] [Fin 0]) 0
                  = Some (Fin r) /\ 0 <= r <= 1).
Proof.
  assert (E : reduction_poster [Fin 0] [Fin 0] = [NaN]).
  { unfold reduction_poster. rewrite reduction_pointwise.
    cbn [combine map fst snd]. rewrite reduction_value_zero_ref.
    rewrite Rltb_ge, Reqb_eq by lra. reflexivity. }
  split; [exact E|].
  rewrite E. intros (r & H & _). discriminate H.
Qed.

(** *** Moments of finite columns *)

Lemma np_mean_Fin (l : list R) :
  l <> [] -> np_mean (map Fin l) = Fin (sum_R l / INR (length l)).
Proof.
  intros Hne. unfold np_mean. rewrite np_sum_Fin, length_map.
  apply fdiv_Fin. apply not_0_INR. destruct l; [congruence | discriminate].
Qed.

Lemma sum_sq_dev_Fin (l : list R) (m : R) :
  sum_sq_dev (map Fin l) (Fin m) = Fin (sum_R (map (sq_dev m) l)).
Proof.
  unfold sum_sq_dev. rewrite map_map, <- np_sum_Fin, map_map.
  reflexivity.
Qed.




Lemma py_div_int_one (n : Z) :
  n <> 0%Z -> py_div_int 1 n = inr (Fin (1 / IZR n)).
Proof.
  intros H. unfold py_div_int.
  destruct (Z.eqb_spec n 0) as [E|E]; [contradiction | reflexivity].
Qed.




(** *** The effective number of replicas *)











(** *** The weights *)

Lemma fpow_Fin_nonneg (b y : R) :
  0 <= b -> 0 <= y -> fpow (Fin b) y = Fin (Rpow b y).
Proof.
  intros Hb Hy. unfold fpow, Rpow.
  destruct (Reqb y 0) eqn:Ey; [reflexivity|].
  destruct (Rle_lt_or_eq_dec 0 b Hb) as [L|E].
  - rewrite Rsign_pos by exact L. rewrite Reqb_neq by lra. reflexivity.
  - subst b. rewrite Rsign_zero, Reqb_eq, Rltb_ge by exact Hy. reflexivity.
Qed.



Lemma pow2_pos (s : R) : s <> 0 -> 0 < s ^ 2.
Proof. intros H. rewrite <- Rsqr_pow2. apply Rsqr_pos_lt, H. Qed.



Lemma combine_map_Fin (chi : list R) (ks : list Z) :
  combine (map Fin chi) ks
  = map (fun ck : R * Z => (Fin (fst ck), snd ck)) (combine chi ks).
Proof.
  revert ks. induction chi as [|c r IH]; intros [|k ks]; simpl;
    try reflexivity.
  rewrite IH. reflexivity.
Qed.

Lemma unnormalized_weights_Fin (chi : list R) (ks : list Z) (s : R) :
  s <> 0 ->
  Forall (fun c => 0 <= c) chi -> Forall (fun k => (1 <= k)%Z) ks ->
  unnormalized_weights (map Fin chi) ks (Fin s)
  = map Fin (map (fun ck : R * Z => weight_formula s (fst ck) (snd ck))
                 (combine chi ks)).
Proof.
  intros Hs Hchi Hks. unfold unnormalized_weights.
  rewrite combine_map_Fin, !map_map. apply map_ext_in.
  intros [c k] Hin. cbn [fst snd].
  assert (Hc : 0 <= c).
  { rewrite Forall_forall in Hchi. apply Hchi.
    eapply in_combine_l; exact Hin. }
  assert (Hk : (1 <= k)%Z).
  { rewrite Forall_forall in Hks. apply Hks.
    eapply in_combine_r; exact Hin. }
  assert (Hss : 0 < s * s).
  { replace (s * s) with (s ^ 2) by ring. apply pow2_pos. exact Hs. }
  cbn [fmul]. rewrite !fdiv_Fin by lra.
  rewrite fpow_Fin_nonneg.
  - cbn [fexp fmul]. unfold weight_formula. f_equal. f_equal.
    + f_equal.
      * f_equal. ring.
      * rewrite minus_IZR. field.
    + f_equal. field. lra.
  - unfold Rdiv. apply Rmult_le_pos; [exact Hc|].
    left. apply Rinv_0_lt_compat. exact Hss.
  - assert (0 <= IZR (k - 1)) by (apply IZR_le; lia). lra.
Qed.



Lemma length_calculate_weights (chi2_all_reps : list float64)
    (n_datapoints : list Z) (n_reps : nat) (scaling_factor : float64) :
  length (calculate_weights chi2_all_reps n_datapoints n_reps scaling_factor)
  = Nat.min (length chi2_all_reps) (length n_datapoints).
Proof.
  unfold calculate_weights, unnormalized_weights.
  rewrite !length_map. apply length_combine.
Qed.

(** C6 (as amended).  [calculate_weights] tests nothing and raises
    nothing: whatever the chi2 values, the numbers of data points, the
    number of replicas and the scaling factor, it returns one weight per
    replica, and the only exception of the stage of lines 157-167 is the
    assertion on the sum of the weights. *)
Theorem calculate_weights_no_validation (chi2_all_reps : list float64)
    (n_datapoints : list Z) (n_reps : nat) (scaling_factor : float64) :
  (length chi2_all_reps = length n_datapoints ->
   length (calculate_weights chi2_all_reps n_datapoints n_reps scaling_factor)
   = length chi2_all_reps)
  /\ (forall e, reweighting chi2_all_reps n_datapoints n_reps = inl e ->
        e = AssertionError "sum of weights should equal number of replicas")
  /\ (forall w c, reweighting chi2_all_reps n_datapoints n_reps = inr (w, c) ->
        (w, c) = replace_small_weights
                   (calculate_weights chi2_all_reps n_datapoints n_reps (Fin 1))).
Proof.
  split; [|split].
  - intros E. rewrite length_calculate_weights, E. apply Nat.min_id.
  - intros e. unfold reweighting.
    destruct (replace_small_weights _) as [w c].
    destruct (feq _ _); intros H; [discriminate H|].
    injection H as <-. reflexivity.
  - intros w c. unfold reweighting.
    destruct (replace_small_weights _) as [w' c'].
    destruct (feq _ _); intros H; [|discriminate H].
    injection H as <- <-. reflexivity.
Qed.

Lemma calculate_weights_no_validation_witness :
  length (calculate_weights [Fin (-1)] [0%Z] 1 (Fin 1)) = length [Fin (-1)].
Proof.
  apply (calculate_weights_no_validation [Fin (-1)] [0%Z] 1 (Fin 1)).
  reflexivity.
Defined.

Lemma tiny_lt_1 : 0 < tiny < 1.
Proof.
  unfold tiny.
  assert (H : 1 < IZR (10 ^ 300)) by (apply IZR_lt; reflexivity).
  split.
  - apply Rinv_0_lt_compat. lra.
  - rewrite <- Rinv_1. apply Rinv_lt_contravar; lra.
Qed.

Lemma Rrint_IZR (z : Z) : Rrint (IZR z) = z.
Proof.
  unfold Rrint.
  assert (E : Int_part (IZR z) = z).
  { symmetry. apply Int_part_spec. lra. }
  rewrite E. rewrite Rltb_lt by lra. reflexivity.
Qed.

(** C6 as stated fails: with a number of data points below 1, with a
    negative chi2 and with no replica at all the function returns
    weights, and the stage of lines 157-167 goes on with them. *)
Lemma calculate_weights_accepts_invalid :
  calculate_weights [Fin 1] [0%Z] 1 (Fin 1) = [Fin 1]
  /\ calculate_weights [Fin (-1)] [1%Z] 1 (Fin 1) = [Fin 1]
  /\ calculate_weights [] [] 0 (Fin 1) = []
  /\ reweighting [Fin (-1)] [1%Z] 1 = inr ([Fin 1], 0%nat).
Proof.
  assert (E1 : calculate_weights [Fin 1] [0%Z] 1 (Fin 1) = [Fin 1]).
  { unfold calculate_weights, unnormalized_weights.
    cbn [combine map fmul]. rewrite !fdiv_Fin by lra.
    unfold fpow. rewrite Reqb_neq by (simpl; lra).
    rewrite Rsign_pos by lra. cbn [fexp fmul np_sum fold_left fadd].
    set (u := Rpower _ _ * exp _).
    assert (Hu : 0 < u).
    { unfold u. apply Rmult_lt_0_compat; [unfold Rpower|]; apply exp_pos. }
    cbn [INR]. rewrite !fdiv_Fin by lra.
    f_equal. f_equal. field. lra. }
  assert (E2 : calculate_weights [Fin (-1)] [1%Z] 1 (Fin 1) = [Fin 1]).
  { unfold calculate_weights, unnormalized_weights.
    cbn [combine map fmul]. rewrite !fdiv_Fin by lra.
    unfold fpow. rewrite (proj2 (Reqb_true _ 0)) by (simpl; lra).
    cbn [fexp fmul np_sum fold_left fadd].
    set (u := 1 * exp _).
    assert (Hu : 0 < u).
    { unfold u. rewrite Rmult_1_l. apply exp_pos. }
    cbn [INR]. rewrite !fdiv_Fin by lra.
    f_equal. f_equal. field. lra. }
  split; [exact E1|]. split; [exact E2|]. split; [reflexivity|].
  unfold reweighting. rewrite E2.
  unfold replace_small_weights, zero_weights, np_where.
  cbn [where_from flt]. rewrite Rltb_ge by (pose proof tiny_lt_1; lra).
  cbn [np_put fold_left length np_sum fadd np_round].
  replace (0 + 1) with (IZR 1) by lra. rewrite Rrint_IZR.
  cbn [INR feq]. rewrite Reqb_eq. reflexivity.
Qed.

(** *** The unweighted set and its variance *)

Lemma np_take_map {A B : Type} (f : A -> B) (l : list A) (ind : list nat) :
  np_take (map f l) ind = map f (np_take l ind).
Proof.
  unfold np_take. induction ind as [|i r IH]; [reflexivity|].
  cbn [flat_map]. rewrite map_app, IH, nth_error_map.
  destruct (nth_error l i); reflexivity.
Qed.

Lemma np_repeat_map {A B : Type} (f : A -> B) (l : list A) :
  forall counts, np_repeat (map f l) counts = map f (np_repeat l counts).
Proof.
  induction l as [|x r IH]; intros [|c cs]; simpl; try reflexivity.
  rewrite map_app, IH. f_equal.
  induction (Z.to_nat c) as [|n IHn]; simpl; [reflexivity|].
  rewrite IHn. reflexivity.
Qed.

Lemma np_take_where_from {A B : Type} (p : B -> bool) :
  forall (ms : list B) (xs pre : list A),
    length xs = length ms ->
    np_take (pre ++ xs) (where_from (length pre) p ms) = select p ms xs.
Proof.
  induction ms as [|m ms IH]; intros [|x xs] pre Hl; simpl in Hl;
    try discriminate; [reflexivity|].
  injection Hl as Hl.
  specialize (IH xs (pre ++ [x]) Hl).
  rewrite <- app_assoc, length_app, Nat.add_1_r in IH. cbn [app] in IH.
  cbn [where_from select]. destruct (p m).
  - unfold np_take in *. cbn [flat_map].
    rewrite nth_error_app2, Nat.sub_diag by lia. cbn [nth_error app].
    f_equal. exact IH.
  - exact IH.
Qed.

Lemma np_repeat_select {A : Type} :
  forall (ms : list Z) (xs : list A),
    np_repeat (select (fun c => negb (Z.eqb c 0)) ms xs)
              (select (fun c => negb (Z.eqb c 0)) ms ms)
    = np_repeat xs ms.
Proof.
  induction ms as [|m ms IH]; intros [|x xs]; try reflexivity.
  cbn [select]. destruct (Z.eqb_spec m 0) as [E|E]; cbn [negb np_repeat].
  - subst m. cbn [Z.to_nat repeat app]. apply IH.
  - rewrite IH. reflexivity.
Qed.

(** Dropping the replicas without copies changes nothing: the
    unweighted set is every prior value written as many times as its
    multiplicity. *)
Lemma unw_coeffs_repeat (col : list float64) (unw_weights : list Z) :
  length col = length unw_weights ->
  unw_coeffs col unw_weights = np_repeat col unw_weights.
Proof.
  intros Hl. unfold unw_coeffs, surv_rep_nums, np_where.
  rewrite (np_take_where_from _ unw_weights col [] Hl).
  rewrite (np_take_where_from _ unw_weights unw_weights [] eq_refl).
  apply np_repeat_select.
Qed.

(** C5 (as amended).  The unweighted set holds each prior value as many
    times as its multiplicity, so its length is the sum of the
    multiplicities; its variance is the sum of the squared deviations
    from its mean divided by [n_eff - 1], for the value [n_eff] passed,
    which line 198 takes unrounded. *)
Theorem unw_variances_divisor (col : list R) (unw_weights : list Z) (n_eff : R) :
  length col = length unw_weights ->
  Forall (fun c => (0 <= c)%Z) unw_weights ->
  (0 < Unweighting.sumZ unw_weights)%Z ->
  n_eff <> 1 ->
  let xs := np_repeat col unw_weights in
  let mean := sum_R xs / INR (length xs) in
  unw_coeffs (map Fin col) unw_weights = map Fin xs
  /\ Z.of_nat (length xs) = Unweighting.sumZ unw_weights
  /\ unw_means (map Fin xs) = Fin mean
  /\ unw_variances (map Fin xs) (Fin n_eff)
     = Fin (1 / (n_eff - 1) * sum_R (map (sq_dev mean) xs)).
Proof.
  intros Hl Hnn Hpos Hne xs mean.
  assert (Hlen : Z.of_nat (length xs) = Unweighting.sumZ unw_weights).
  { unfold xs, Unweighting.sumZ. apply length_np_repeat; assumption. }
  assert (Hxs : xs <> []).
  { intros E. rewrite E in Hlen. simpl in Hlen. lia. }
  split.
  { rewrite unw_coeffs_repeat by (rewrite length_map; exact Hl).
    apply np_repeat_map. }
  split; [exact Hlen|].
  assert (Hm : unw_means (map Fin xs) = Fin mean)
    by (apply np_mean_Fin; exact Hxs).
  split; [exact Hm|].
  unfold unw_variances. rewrite Hm, sum_sq_dev_Fin.
  cbn [fsub fopp fadd]. rewrite fdiv_Fin by lra.
  cbn [fmul]. f_equal.
Qed.

Lemma unw_variances_divisor_witness :
  let xs := np_repeat [1; 2; 3; 4] [1%Z; 1%Z; 1%Z; 0%Z] in
  let mean := sum_R xs / INR (length xs) in
  unw_coeffs (map Fin [1; 2; 3; 4]) [1%Z; 1%Z; 1%Z; 0%Z] = map Fin xs
  /\ Z.of_nat (length xs) = Unweighting.sumZ [1%Z; 1%Z; 1%Z; 0%Z]
  /\ unw_means (map Fin xs) = Fin mean
  /\ unw_variances (map Fin xs) (Fin (3832915 / 1000000))
     = Fin (1 / (3832915 / 1000000 - 1) * sum_R (map (sq_dev mean) xs)).
Proof.
  apply (unw_variances_divisor [1; 2; 3; 4] [1%Z; 1%Z; 1%Z; 0%Z]
           (3832915 / 1000000)).
  - reflexivity.
  - repeat constructor; discriminate.
  - reflexivity.
  - lra.
Defined.

(** C5 as stated fails: for the four replicas with values 1, 2, 3, 4
    and chi2 1, 2, 3, 4 the script has [n_eff = 3.832915...] and the
    multiplicities 1, 1, 1, 0; the divisor of the variance is
    [n_eff - 1], not [floor(n_eff) - 1 = 2], which is the length of the
    unweighted set minus one. *)
Lemma unw_variances_not_floor :
  let n_eff := 3832915 / 1000000 in
  let unw := unw_coeffs (map Fin [1; 2; 3; 4]) [1%Z; 1%Z; 1%Z; 0%Z] in
  Int_part n_eff = 3%Z
  /\ unw = [Fin 1; Fin 2; Fin 3]
  /\ length unw = 3%nat
  /\ exists v,
       unw_variances unw (Fin n_eff) = Fin v
       /\ v = 2 / (n_eff - 1)
       /\ v <> 1 / (IZR (Int_part n_eff) - 1)
               * sum_R (map (sq_dev 2) [1; 2; 3]).
Proof.
  cbv zeta.
  assert (Ei : Int_part (3832915 / 1000000) = 3%Z).
  { symmetry. apply Int_part_spec. lra. }
  split; [exact Ei|]. split; [reflexivity|]. split; [reflexivity|].
  change (unw_coeffs (map Fin [1; 2; 3; 4]) [1%Z; 1%Z; 1%Z; 0%Z])
    with (map Fin [1; 2; 3]).
  unfold unw_variances, unw_means.
  rewrite np_mean_Fin by discriminate. rewrite sum_sq_dev_Fin.
  cbn [fsub fopp fadd]. rewrite fdiv_Fin by lra. cbn [fmul].
  exists (2 / (3832915 / 1000000 - 1)).
  rewrite Ei. unfold sq_dev, sum_R. cbn [map fold_right length INR].
  split; [f_equal; field | split; [reflexivity | lra]].
Qed.

End ReweightingFacts.

(** ** Further facts on the unweighting *)

Section UnweightingMore.
Import Numpy Unweighting.
Local Open Scope Q_scope.













(** *** The multiplicity of one replica *)









(** *** The two assertions and the empty input *)






Lemma sumZ_le_length (l : list Z) :
  Forall (fun x => (x <= 1)%Z) l -> (sumZ l <= Z.of_nat (length l))%Z.
Proof.
  induction 1 as [|x r Hx _ IH]; [unfold sumZ; simpl; lia|].
  rewrite sumZ_cons. cbn [length]. lia.
Qed.

(** X4.  There is one multiplicity per replica, and none is larger than
    the number of new replicas, [ceil(n_eff)] (0 when [n_eff <= 0]). *)
Theorem unw_weights_shape (pc : list Q) (n_reps : nat) (n_eff : Q) :
  length (unw_weights pc n_reps n_eff) = n_reps
  /\ Forall (fun m => (0 <= m <= Z.max 0 (Qceiling n_eff))%Z)
            (unw_weights pc n_reps n_eff).
Proof.
  rewrite unw_weights_as_table. split.
  - rewrite length_map, length_seq. reflexivity.
  - apply Forall_forall. intros m Hm.
    apply in_map_iff in Hm. destruct Hm as (i & <- & Hi).
    apply in_seq in Hi. split.
    + apply sumZ_nonneg, Forall_forall. intros z Hz.
      apply in_map_iff in Hz. destruct Hz as (t & <- & _).
      apply to_int_entry_range. lia.
    + set (row := map (fun t => to_int (unw_weights_rep_num pc n_eff i t))
                      (arange1 (n_eff + 1))).
      assert (Hs : (sumZ row <= Z.of_nat (length row))%Z).
      { apply sumZ_le_length, Forall_forall. intros z Hz.
        apply in_map_iff in Hz. destruct Hz as (t & <- & _).
        apply to_int_entry_range. lia. }
      unfold row in Hs at 2.
      rewrite length_map, length_arange1, Qceiling_plus_minus_1 in Hs.
      lia.
Qed.

(** X5.  The stage ends with [ValueError] exactly when there is no
    replica; with at least one replica the only exceptions are the
    assertions of lines 195 and 222. *)
Theorem unweighting_exceptions (w : list Q) (n_reps : nat) (n_eff : Q) :
  ((exists msg, unweighting w n_reps n_eff = inl (ValueError msg))
   <-> n_reps = 0%nat)
  /\ ((1 <= n_reps)%nat ->
      forall e, unweighting w n_reps n_eff = inl e ->
        e = AssertionError "probability cumulants do not add up to 1.0000"
        \/ e = AssertionError
                 "integer weights after unweighting do not satisfy normalization").
Proof.
  pose proof (length_probs_cumul (probs w n_reps) n_reps) as Hlen.
  unfold unweighting.
  destruct (probs_cumul (probs w n_reps) n_reps) as [|c cs].
  - simpl in Hlen. split.
    + split; [intros _; lia | intros _; eexists; reflexivity].
    + intros Hn. lia.
  - simpl in Hlen. split.
    + split; [|lia]. intros (msg & H).
      destruct (Qeq_bool _ 1); [destruct (Z.eqb _ _)|]; discriminate H.
    + intros _ e H.
      destruct (Qeq_bool _ 1); [destruct (Z.eqb _ _)|];
        try discriminate H; injection H as <-; auto.
Qed.

End UnweightingMore.

(** ** Further facts on the reweighting *)

Section ReweightingMore.
Import Numpy Float64 Reweighting.
Local Open Scope R_scope.






(** *** Replacing the small weights *)





Lemma fadd_NaN_l (x : float64) : fadd NaN x = NaN.
Proof. destruct x; reflexivity. Qed.

Lemma fold_fadd_NaN (l : list float64) : fold_left fadd l NaN = NaN.
Proof.
  induction l as [|x r IH]; [reflexivity|].
  cbn [fold_left]. rewrite fadd_NaN_l. exact IH.
Qed.

Lemma np_sum_NaN (l : list float64) : In NaN l -> np_sum l = NaN.
Proof.
  unfold np_sum. generalize (Fin 0) as a.
  induction l as [|x r IH]; intros a Hin; [contradiction|].
  simpl. destruct Hin as [-> | Hin].
  - replace (fadd a NaN) with NaN by (destruct a; reflexivity).
    apply fold_fadd_NaN.
  - apply IH, Hin.
Qed.

(** X8.  Without the replacement a weight equal to zero makes the
    effective number of replicas [nan]: [n_reps/0] is [inf], its
    logarithm is [inf], and [0 * inf] is [nan]. *)
Theorem n_eff_nan_on_zero_weight (nnpdf_weights : list float64)
    (n_reps : nat) :
  (1 <= n_reps)%nat -> In (Fin 0) nnpdf_weights ->
  n_eff nnpdf_weights n_reps = inr NaN.
Proof.
  intros Hn Hin. unfold n_eff. rewrite py_div_int_one by lia.
  rewrite np_sum_NaN; [reflexivity|].
  apply in_map_iff. exists (Fin 0). split; [|exact Hin].
  assert (HN : 0 < INR n_reps) by (apply lt_0_INR; lia).
  unfold fdiv. rewrite Reqb_eq, Rsign_pos by exact HN.
  cbn [flog fmul inf_times]. rewrite Rsign_zero. reflexivity.
Qed.

Lemma n_eff_nan_on_zero_weight_witness :
  n_eff [Fin 0; Fin 2] 2 = inr NaN.
Proof.
  apply (n_eff_nan_on_zero_weight [Fin 0; Fin 2] 2).
  - apply le_S, le_n.
  - left. reflexivity.
Defined.

(** X9.  Replacing the small weights twice changes nothing more: the
    second pass finds no weight below [1e-300]. *)
Theorem replace_small_weights_idempotent (nnpdf_weights : list float64) :
  replace_small_weights (fst (replace_small_weights nnpdf_weights))
  = (fst (replace_small_weights nnpdf_weights), 0%nat).
Proof.
  unfold replace_small_weights, zero_weights. cbn [fst].
  rewrite !np_put_where, length_np_where.
  set (f := fun w => if flt w (Fin tiny) then Fin tiny else w).
  assert (Hf : forall w, flt (f w) (Fin tiny) = false).
  { intros w. unfold f. destruct (flt w (Fin tiny)) eqn:E; [|exact E].
    cbn [flt]. apply Rltb_ge. lra. }
  f_equal.
  - rewrite map_map. apply map_ext. intros w.
    unfold f at 1. rewrite Hf. reflexivity.
  - induction nnpdf_weights as [|w r IH]; [reflexivity|].
    cbn [map filter]. rewrite Hf. exact IH.
Qed.


(** *** The assertion on the sum of the weights *)


Lemma sum_R_repeat (x : R) (n : nat) : sum_R (repeat x n) = INR n * x.
Proof.
  induction n as [|n IH]; [simpl; lra|].
  rewrite S_INR. cbn [repeat sum_R fold_right]. fold (sum_R (repeat x n)).
  rewrite IH. lra.
Qed.







(** *** Two special inputs *)





Lemma np_sum_repeat_NaN (n : nat) :
  (1 <= n)%nat -> np_sum (repeat NaN n) = NaN.
Proof.
  intros Hn. apply np_sum_NaN. destruct n; [lia | left; reflexivity].
Qed.

(** X12.  When every chi2 is zero and every replica has at least two
    data points, all unnormalized weights are 0, the normalization is
    0/0, every weight is [nan], and the stage ends on the assertion of
    line 166. *)
Theorem reweighting_all_zero_chi2 (ks : list Z) (n_reps : nat) :
  (1 <= n_reps)%nat -> length ks = n_reps ->
  Forall (fun k => (2 <= k)%Z) ks ->
  calculate_weights (repeat (Fin 0) n_reps) ks n_reps (Fin 1)
  = repeat NaN n_reps
  /\ reweighting (repeat (Fin 0) n_reps) ks n_reps
     = inl (AssertionError "sum of weights should equal number of replicas").
Proof.
  intros Hn Hl Hks.
  assert (HN : 0 < INR n_reps) by (apply lt_0_INR; lia).
  assert (Euw : unnormalized_weights (repeat (Fin 0) n_reps) ks (Fin 1)
                = map Fin (repeat 0 n_reps)).
  { rewrite <- (map_repeat 0 n_reps Fin).
    rewrite unnormalized_weights_Fin.
    - f_equal. subst n_reps. clear Hn HN.
      induction Hks as [|k r Hk _ IH]; [reflexivity|].
      cbn [length repeat combine map fst snd]. rewrite IH. f_equal.
      unfold weight_formula, Rpow.
      rewrite Reqb_neq.
      + rewrite (proj2 (Reqb_true _ 0)) by (unfold Rdiv; lra). lra.
      + assert (2 <= IZR k) by (apply IZR_le; exact Hk). lra.
    - lra.
    - apply Forall_forall. intros x Hx. apply repeat_spec in Hx. lra.
    - eapply Forall_impl; [|exact Hks]. simpl. intros; lia. }
  assert (Ecw : calculate_weights (repeat (Fin 0) n_reps) ks n_reps (Fin 1)
                = repeat NaN n_reps).
  { unfold calculate_weights. rewrite Euw, np_sum_Fin, sum_R_repeat.
    rewrite fdiv_Fin by lra. rewrite !map_repeat.
    f_equal. unfold fdiv.
    rewrite (proj2 (Reqb_true _ 0)) by (unfold Rdiv; lra).
    rewrite Rsign_zero. reflexivity. }
  split; [exact Ecw|].
  unfold reweighting. rewrite Ecw.
  assert (Er : replace_small_weights (repeat NaN n_reps)
               = (repeat NaN n_reps, 0%nat)).
  { unfold replace_small_weights, zero_weights.
    rewrite np_put_where, length_np_where, map_repeat. f_equal.
    clear. induction n_reps as [|n IH]; [reflexivity | exact IH]. }
  rewrite Er, np_sum_repeat_NaN by exact Hn. reflexivity.
Qed.

Lemma reweighting_all_zero_chi2_witness :
  calculate_weights (repeat (Fin 0) 2) [2%Z; 3%Z] 2 (Fin 1) = repeat NaN 2
  /\ reweighting (repeat (Fin 0) 2) [2%Z; 3%Z] 2
     = inl (AssertionError "sum of weights should equal number of replicas").
Proof.
  apply (reweighting_all_zero_chi2 [2%Z; 3%Z] 2).
  - apply le_S, le_n.
  - reflexivity.
  - repeat constructor; discriminate.
Defined.


(** *** Moments *)





(** X14.  The moments of lines 130, 176 and 274 raise
    [ZeroDivisionError] exactly when there is a single replica. *)
Theorem variances_zero_division (nnpdf_weights col : list float64)
    (n_reps : nat) :
  (prior_variances col n_reps = inl ZeroDivisionError <-> n_reps = 1%nat)
  /\ (rw_variances nnpdf_weights col n_reps = inl ZeroDivisionError
      <-> n_reps = 1%nat)
  /\ (prior_st_devs col n_reps = inl ZeroDivisionError <-> n_reps = 1%nat)
  /\ (rw_st_devs nnpdf_weights col n_reps = inl ZeroDivisionError
      <-> n_reps = 1%nat).
Proof.
  unfold prior_st_devs, rw_st_devs, prior_variances, rw_variances, py_div_int.
  destruct (Z.eqb_spec (Z.of_nat n_reps - 1) 0) as [E|E].
  - assert (n_reps = 1%nat) by lia. repeat split; auto.
  - assert (n_reps <> 1%nat) by lia.
    repeat split; intros H0; try discriminate H0; contradiction.
Qed.

Lemma combine_map_Fin_Fin (ws col : list R) :
  combine (map Fin ws) (map Fin col)
  = map (fun wx : R * R => (Fin (fst wx), Fin (snd wx))) (combine ws col).
Proof.
  revert col. induction ws as [|w r IH]; intros [|x col]; simpl;
    try reflexivity.
  rewrite IH. reflexivity.
Qed.

Lemma rw_coeffs_Fin (ws col : list R) :
  rw_coeffs (map Fin ws) (map Fin col)
  = map Fin (map (fun wx : R * R => fst wx * snd wx) (combine ws col)).
Proof.
  unfold rw_coeffs. rewrite combine_map_Fin_Fin, !map_map. reflexivity.
Qed.

Lemma combine_nil_iff {A B : Type} (l : list A) (l' : list B) :
  length l = length l' -> l <> [] -> combine l l' <> [].
Proof.
  destruct l, l'; simpl; intros; try congruence; discriminate.
Qed.

(** X15.  For weights that are not negative the reweighted variance is
    a number that is not negative, so its square root is a number too:
    the mean is [sum_i W_i x_i / N], the variance
    [sum_i W_i (x_i - mean)^2 / (n_reps - 1)]. *)
Theorem rw_st_devs_finite (ws col : list R) (n_reps : nat) :
  (2 <= n_reps)%nat -> length ws = length col -> ws <> [] ->
  Forall (fun w => 0 <= w) ws ->
  let mean := sum_R (map (fun wx : R * R => fst wx * snd wx)
                         (combine ws col)) / INR (length ws) in
  let var := 1 / IZR (Z.of_nat n_reps - 1)
             * sum_R (map (fun wx : R * R => fst wx * sq_dev mean (snd wx))
                          (combine ws col)) in
  rw_means (map Fin ws) (map Fin col) = Fin mean
  /\ rw_variances (map Fin ws) (map Fin col) n_reps = inr (Fin var)
  /\ 0 <= var
  /\ rw_st_devs (map Fin ws) (map Fin col) n_reps = inr (Fin (sqrt var)).
Proof.
  intros Hn Hl Hne Hw mean var.
  assert (Em : rw_means (map Fin ws) (map Fin col) = Fin mean).
  { unfold rw_means. rewrite rw_coeffs_Fin, np_mean_Fin.
    - rewrite length_map, length_combine, <- Hl, Nat.min_id. reflexivity.
    - intros E. apply map_eq_nil in E.
      revert E. apply combine_nil_iff; assumption. }
  assert (Ev : rw_variances (map Fin ws) (map Fin col) n_reps = inr (Fin var)).
  { unfold rw_variances. rewrite py_div_int_one by lia. rewrite Em.
    rewrite combine_map_Fin_Fin, map_map.
    assert (E : map (fun x : R * R =>
                       fmul (fst (Fin (fst x), Fin (snd x)))
                            (fsquare (fsub (snd (Fin (fst x), Fin (snd x)))
                                           (Fin mean))))
                    (combine ws col)
                = map Fin (map (fun wx : R * R => fst wx * sq_dev mean (snd wx))
                               (combine ws col))).
    { rewrite map_map. reflexivity. }
    rewrite E, np_sum_Fin. reflexivity. }
  assert (Hv : 0 <= var).
  { unfold var. apply Rmult_le_pos.
    - left. apply Rdiv_lt_0_compat; [lra|]. apply IZR_lt. lia.
    - apply sum_R_nonneg, Forall_forall. intros y Hy.
      apply in_map_iff in Hy. destruct Hy as ([w x] & <- & Hin).
      cbn [fst snd]. apply Rmult_le_pos.
      + rewrite Forall_forall in Hw. apply Hw.
        eapply in_combine_l; exact Hin.
      + unfold sq_dev. apply (Rle_0_sqr (x - mean)). }
  split; [exact Em|]. split; [exact Ev|]. split; [exact Hv|].
  unfold rw_st_devs. rewrite Ev. cbn [fsqrt].
  rewrite Rltb_ge by exact Hv. reflexivity.
Qed.

Lemma rw_st_devs_finite_witness :
  let mean := sum_R (map (fun wx : R * R => fst wx * snd wx)
                         (combine [1; 1] [0; 2])) / INR (length [1; 1]) in
  let var := 1 / IZR (Z.of_nat 2 - 1)
             * sum_R (map (fun wx : R * R => fst wx * sq_dev mean (snd wx))
                          (combine [1; 1] [0; 2])) in
  rw_means (map Fin [1; 1]) (map Fin [0; 2]) = Fin mean
  /\ rw_variances (map Fin [1; 1]) (map Fin [0; 2]) 2 = inr (Fin var)
  /\ 0 <= var
  /\ rw_st_devs (map Fin [1; 1]) (map Fin [0; 2]) 2 = inr (Fin (sqrt var)).
Proof.
  apply (rw_st_devs_finite [1; 1] [0; 2] 2).
  - apply le_n.
  - reflexivity.
  - discriminate.
  - repeat constructor; lra.
Defined.

(** X16.  With all weights equal to 1 the reweighted mean, variance and
    standard deviation are the prior ones. *)
Theorem rw_moments_unit_weights (col : list R) (n_reps : nat) :
  rw_means (repeat (Fin 1) (length col)) (map Fin col)
  = prior_means (map Fin col)
  /\ rw_variances (repeat (Fin 1) (length col)) (map Fin col) n_reps
     = prior_variances (map Fin col) n_reps
  /\ rw_st_devs (repeat (Fin 1) (length col)) (map Fin col) n_reps
     = prior_st_devs (map Fin col) n_reps.
Proof.
  assert (Ec : forall l : list R,
             combine (repeat 1 (length l)) l = map (fun x => (1, x)) l).
  { induction l as [|x r IH]; [reflexivity|]. simpl. rewrite IH. reflexivity. }
  assert (Em : rw_means (repeat (Fin 1) (length col)) (map Fin col)
               = prior_means (map Fin col)).
  { unfold rw_means, prior_means.
    f_equal.
    rewrite <- (map_repeat 1 (length col) Fin), rw_coeffs_Fin, Ec.
    f_equal. rewrite map_map. rewrite <- (map_id col) at 2.
    apply map_ext. intros x. cbn [fst snd]. lra. }
  assert (Ev : rw_variances (repeat (Fin 1) (length col)) (map Fin col) n_reps
               = prior_variances (map Fin col) n_reps).
  { unfold rw_variances, prior_variances. rewrite Em.
    destruct (py_div_int 1 (Z.of_nat n_reps - 1)) as [e|c]; [reflexivity|].
    f_equal. f_equal. unfold sum_sq_dev. f_equal.
    rewrite <- (map_repeat 1 (length col) Fin), combine_map_Fin_Fin, Ec.
    rewrite !map_map. apply map_ext. intros x. cbn [fst snd].
    destruct (fsquare (fsub (Fin x) (prior_means (map Fin col)))) as [r| | |];
      cbn [fmul inf_times]; try reflexivity.
    - f_equal. lra.
    - rewrite Rsign_pos by lra. reflexivity.
    - rewrite Rsign_pos by lra. reflexivity. }
  split; [exact Em|]. split; [exact Ev|].
  unfold rw_st_devs, prior_st_devs. rewrite Ev. reflexivity.
Qed.


(** *** Validation *)

(** X17.  Whatever the standard deviations (infinite and [nan]
    included), the reductions have one entry per operator and no entry
    compares below zero. *)
Theorem reduction_never_negative (st_devs prior_st_devs : list float64) :
  length (reduction st_devs prior_st_devs)
  = Nat.min (length st_devs) (length prior_st_devs)
  /\ Forall (fun r => flt r (Fin 0) = false)
            (reduction st_devs prior_st_devs).
Proof.
  rewrite reduction_pointwise. split.
  - rewrite length_map. apply length_combine.
  - apply Forall_forall. intros r Hr. apply in_map_iff in Hr.
    destruct Hr as (sp & <- & _). cbv zeta.
    destruct (flt (fsub (Fin 1) (fdiv (fst sp) (snd sp))) (Fin 0)) eqn:E;
      [|exact E].
    cbn [flt]. apply Rltb_ge. lra.
Qed.

Lemma np_take_in_range {A : Type} (arr : list A) : forall ind : list nat,
  Forall (fun i => (i < length arr)%nat) ind ->
  length (np_take arr ind) = length ind
  /\ forall j i, nth_error ind j = Some i ->
                 nth_error (np_take arr ind) j = nth_error arr i.
Proof.
  unfold np_take. induction 1 as [|i r Hi _ [IH1 IH2]].
  - split; [reflexivity|]. intros j i H. destruct j; discriminate H.
  - cbn [flat_map].
    destruct (nth_error arr i) as [x|] eqn:E.
    + split; [simpl; rewrite IH1; reflexivity|].
      intros [|j] i' H; simpl in H.
      * injection H as <-. simpl. symmetry. exact E.
      * simpl. apply IH2, H.
    + apply nth_error_None in E. lia.
Qed.

(** X18.  Every selected position is a position of the arrays of the
    operators, so each array taken at the selected positions (lines
    291-300) has one entry per selected operator, the entry of that
    operator. *)
Theorem constr_op_nums_in_range {A : Type} (arr : list A)
    (ks_stats reduction_poster : list float64)
    (ks_level reduction_level : float64) :
  length arr = length ks_stats ->
  let sel := constr_op_nums ks_stats reduction_poster
                            ks_level reduction_level in
  Forall (fun i => (i < length arr)%nat) sel
  /\ length (np_take arr sel) = length sel
  /\ forall j i, nth_error sel j = Some i ->
                 nth_error (np_take arr sel) j = nth_error arr i.
Proof.
  intros Hl sel.
  assert (Hr : Forall (fun i => (i < length arr)%nat) sel).
  { apply Forall_forall. intros i Hi. unfold sel, constr_op_nums in Hi.
    apply in_intersect1d in Hi. destruct Hi as [Hk _].
    unfold ops_satisfy_ks in Hk. apply in_np_where in Hk.
    destruct Hk as (k & Hk & _). rewrite Hl.
    apply nth_error_Some. congruence. }
  split; [exact Hr|]. apply np_take_in_range. exact Hr.
Qed.

Lemma constr_op_nums_in_range_witness :
  let sel := constr_op_nums [Fin 1; Fin 0] [Fin 1; Fin 1] (Fin 0) (Fin 0) in
  Forall (fun i => (i < length [true; false])%nat) sel
  /\ length (np_take [true; false] sel) = length sel
  /\ forall j i, nth_error sel j = Some i ->
                 nth_error (np_take [true; false] sel) j
                 = nth_error [true; false] i.
Proof.
  apply (constr_op_nums_in_range [true; false] [Fin 1; Fin 0]
           [Fin 1; Fin 1] (Fin 0) (Fin 0)).
  reflexivity.
Defined.

Lemma fgt_level_mono (x : float64) (a b : R) :
  a <= b -> fgt x (Fin b) = true -> fgt x (Fin a) = true.
Proof.
  intros Hab. unfold fgt. destruct x as [r| | |]; cbn [flt]; auto.
  intros H. apply Rltb_true in H. apply Rltb_lt. lra.
Qed.

(** X19.  Raising a threshold never selects more: the operators
    selected at higher levels are among those selected at lower
    levels. *)
Theorem constr_op_nums_monotone (ks_stats reduction_poster : list float64)
    (ks_level ks_level' reduction_level reduction_level' : R) :
  ks_level <= ks_level' -> reduction_level <= reduction_level' ->
  incl (constr_op_nums ks_stats reduction_poster
                       (Fin ks_level') (Fin reduction_level'))
       (constr_op_nums ks_stats reduction_poster
                       (Fin ks_level) (Fin reduction_level)).
Proof.
  intros Hk Hr i Hi. unfold constr_op_nums in *.
  apply in_intersect1d in Hi. destruct Hi as [H1 H2].
  apply in_intersect1d. unfold ops_satisfy_ks, ops_satisfy_red in *.
  apply in_np_where in H1. apply in_np_where in H2.
  destruct H1 as (k & Ek & Gk). destruct H2 as (r & Er & Gr).
  split; apply in_np_where.
  - exists k. split; [exact Ek|]. eapply fgt_level_mono; eassumption.
  - exists r. split; [exact Er|]. eapply fgt_level_mono; eassumption.
Qed.

Lemma constr_op_nums_monotone_witness :
  incl (constr_op_nums [Fin 1] [Fin 1] (Fin (1 / 2)) (Fin (1 / 2)))
       (constr_op_nums [Fin 1] [Fin 1] (Fin 0) (Fin 0)).
Proof.
  apply (constr_op_nums_monotone [Fin 1] [Fin 1] 0 (1 / 2) 0 (1 / 2)); lra.
Defined.

(** *** The unweighted set *)

Lemma sum_R_app (l1 l2 : list R) : sum_R (l1 ++ l2) = sum_R l1 + sum_R l2.
Proof.
  unfold sum_R. induction l1 as [|x r IH]; simpl; [lra|]. rewrite IH. lra.
Qed.

Lemma sum_R_np_repeat (col : list R) : forall mult : list Z,
  Forall (fun c => (0 <= c)%Z) mult ->
  sum_R (np_repeat col mult)
  = sum_R (map (fun xm : R * Z => IZR (snd xm) * fst xm) (combine col mult)).
Proof.
  induction col as [|x r IH]; intros [|m ms] Hm; try reflexivity.
  inversion Hm; subst.
  cbn [np_repeat combine map sum_R fold_right fst snd].
  fold (sum_R (map (fun xm : R * Z => IZR (snd xm) * fst xm) (combine r ms))).
  rewrite sum_R_app, sum_R_repeat, IH by assumption.
  rewrite INR_IZR_INZ, Z2Nat.id by assumption. reflexivity.
Qed.

(** X20.  The mean of the unweighted set is the mean of the prior
    values weighted by the multiplicities,
    [sum_i m_i x_i / sum_i m_i]. *)
Theorem unw_means_weighted (col : list R) (unw_weights : list Z) :
  length col = length unw_weights ->
  Forall (fun c => (0 <= c)%Z) unw_weights ->
  (0 < Unweighting.sumZ unw_weights)%Z ->
  unw_means (unw_coeffs (map Fin col) unw_weights)
  = Fin (sum_R (map (fun xm : R * Z => IZR (snd xm) * fst xm)
                    (combine col unw_weights))
         / IZR (Unweighting.sumZ unw_weights)).
Proof.
  intros Hl Hnn Hpos.
  rewrite unw_coeffs_repeat by (rewrite length_map; exact Hl).
  rewrite np_repeat_map.
  assert (Hlen : Z.of_nat (length (np_repeat col unw_weights))
                 = Unweighting.sumZ unw_weights).
  { unfold Unweighting.sumZ. apply length_np_repeat; assumption. }
  unfold unw_means. rewrite np_mean_Fin.
  - rewrite sum_R_np_repeat by exact Hnn.
    rewrite INR_IZR_INZ, Hlen. reflexivity.
  - intros E. rewrite E in Hlen. simpl in Hlen. lia.
Qed.

Lemma unw_means_weighted_witness :
  unw_means (unw_coeffs (map Fin [1; 2; 3]) [2%Z; 0%Z; 1%Z])
  = Fin (sum_R (map (fun xm : R * Z => IZR (snd xm) * fst xm)
                    (combine [1; 2; 3] [2%Z; 0%Z; 1%Z]))
         / IZR (Unweighting.sumZ [2%Z; 0%Z; 1%Z])).
Proof.
  apply (unw_means_weighted [1; 2; 3] [2%Z; 0%Z; 1%Z]).
  - reflexivity.
  - repeat constructor; discriminate.
  - reflexivity.
Defined.

Lemma In_np_repeat {A : Type} (x : A) : forall (xs : list A) (cs : list Z),
  In x (np_repeat xs cs) -> In x xs.
Proof.
  induction xs as [|a r IH]; intros [|c cs] H; simpl in H; try contradiction.
  apply in_app_or in H. destruct H as [H|H].
  - apply repeat_spec in H. left. symmetry. exact H.
  - right. exact (IH cs H).
Qed.

(** X21.  When the unweighting returns, the unweighted set built from a
    column with one value per replica has exactly [floor(n_eff)] values,
    each of them a value of the column. *)
Theorem unw_coeffs_length (w : list Q) (n_reps : nat) (n_eff : Q)
    (col : list float64) (unw_weights : list Z) :
  Unweighting.unweighting w n_reps n_eff = inr unw_weights ->
  length col = n_reps ->
  Z.of_nat (length (unw_coeffs col unw_weights)) = Qfloor n_eff
  /\ forall x, In x (unw_coeffs col unw_weights) -> In x col.
Proof.
  intros Hu Hl.
  pose proof (unweighting_outcome w n_reps n_eff) as Ho.
  rewrite Hu in Ho. destruct Ho as [Em Es].
  assert (Hlen : length unw_weights = n_reps).
  { rewrite Em, unw_weights_as_table, length_map, length_seq. reflexivity. }
  assert (Hnn : Forall (fun m => (0 <= m)%Z) unw_weights).
  { rewrite Em. apply unw_weights_nonneg. }
  rewrite unw_coeffs_repeat by lia. split.
  - rewrite <- Es. unfold Unweighting.sumZ.
    apply length_np_repeat; [lia | exact Hnn].
  - intros x. apply In_np_repeat.
Qed.

Lemma unw_coeffs_length_witness :
  Z.of_nat (length (unw_coeffs [Fin 5; Fin 7] [1%Z; 0%Z]))
  = Qfloor (1384145 # 1000000)
  /\ forall x, In x (unw_coeffs [Fin 5; Fin 7] [1%Z; 0%Z])
               -> In x [Fin 5; Fin 7].
Proof.
  apply (unw_coeffs_length [9 # 5; 1 # 5]%Q 2 (1384145 # 1000000)
           [Fin 5; Fin 7] [1%Z; 0%Z]).
  - reflexivity.
  - reflexivity.
Defined.

End ReweightingMore.

(** ** Facts on the header of the saved file *)

Section OutputFacts.
Import Output.
Local Open Scope string_scope.

Lemma length_append (s1 s2 : string) :
  String.length (s1 ++ s2) = (String.length s1 + String.length s2)%nat.
Proof. induction s1 as [|a s1 IH]; simpl; [reflexivity | rewrite IH; reflexivity]. Qed.

Lemma length_spaces (n : nat) : String.length (spaces n) = n.
Proof. induction n as [|n IH]; simpl; [reflexivity | rewrite IH; reflexivity]. Qed.

Lemma substring_spaces_append (n m : nat) (s : string) :
  substring n m (spaces n ++ s) = substring 0 m s.
Proof. induction n as [|n IH]; [reflexivity | exact IH]. Qed.

Lemma substring_prefix (s t : string) :
  substring 0 (String.length s) (s ++ t) = s.
Proof.
  induction s as [|a s IH]; simpl.
  - destruct t; reflexivity.
  - rewrite IH. reflexivity.
Qed.

Lemma length_concat_empty (l : list string) :
  String.length (String.concat "" l)
  = fold_right (fun s n => (String.length s + n)%nat) 0%nat l.
Proof.
  induction l as [|a r IH]; [reflexivity|].
  destruct r as [|b r].
  - simpl. lia.
  - change (String.concat "" (a :: b :: r))
      with (a ++ "" ++ String.concat "" (b :: r)).
    rewrite !length_append, IH. reflexivity.
Qed.

(** X22.  In the header of the saved file every operator name stands
    whole in a field of at least 11 characters: the field is
    [max(11, len(name))] long, the name starts after
    [(11 - len(name)) // 2] spaces, and when no name is longer than 11
    characters the header has 11 characters per operator. *)
Theorem names_header_width (op_names : list string) :
  (forall name,
     String.length (formatted_name name) = Nat.max 11 (String.length name)
     /\ substring ((11 - String.length name) / 2) (String.length name)
                  (formatted_name name) = name)
  /\ (Forall (fun name => (String.length name <= 11)%nat) op_names ->
      String.length (names_header op_names) = (11 * length op_names)%nat).
Proof.
  split.
  - intros name. unfold formatted_name, format_center. cbv zeta. split.
    + rewrite !length_append, !length_spaces.
      pose proof (Nat.Div0.div_le_upper_bound (11 - String.length name) 2
                    (11 - String.length name) ltac:(lia)).
      lia.
    + rewrite substring_spaces_append. apply substring_prefix.
  - intros H. unfold names_header. rewrite length_concat_empty.
    induction H as [|name r Hn _ IH]; [reflexivity|].
    cbn [map fold_right length]. rewrite IH.
    assert (E : String.length (formatted_name name) = 11%nat).
    { unfold formatted_name, format_center. cbv zeta.
      rewrite !length_append, !length_spaces.
      pose proof (Nat.Div0.div_le_upper_bound (11 - String.length name) 2
                    (11 - String.length name) ltac:(lia)).
      lia. }
    rewrite E. lia.
Qed.

Lemma names_header_width_witness :
  String.length (names_header ["OtG"; "Opt"]) = (11 * length ["OtG"; "Opt"])%nat.
Proof.
  apply (names_header_width ["OtG"; "Opt"]).
  repeat constructor.
Defined.

Example names_header_example :
  names_header ["OtG"; "Opt"] = "    OtG        Opt    ".
Proof. reflexivity. Qed.
End OutputFacts.
